(** * Document: a word list behind two accessors

    A verification development for [src/document.py].  The Python class
    [Document] keeps a reference to a list of words; [add_word] appends to
    that list in place and [get_words] hands the very same list object back.
    Because the list is passed around by reference, the development models
    the Python object store explicitly: list objects and [Document]
    instances live at addresses in a heap, and the methods are computations
    in a state-and-exception monad over that heap. *)

From stdpp Require Import gmap strings list.

Open Scope string_scope.
Open Scope list_scope.

(** ** The object store *)

Module Py.

(** Object identities. *)
Definition addr := positive.

(** The two kinds of objects the program creates: [list[str]] objects and
    instances of [Document].  An instance carries its [words] attribute,
    which is unset between allocation and the assignment in [__init__]. *)
Inductive object :=
| PyList (items : list string)
| PyDocument (words : option addr).

Abbreviation heap := (gmap addr object).

(** What can go wrong at run time: an attribute or method that the object
    at hand does not have.  [DanglingRef] is the model's answer for an
    address that holds no object; Python references never dangle.
    [NameError] is a client's use of a variable it never bound. *)
Inductive exn := AttributeError | NameError | DanglingRef.

Inductive outcome (A : Type) :=
| Ok (a : A) (h : heap)
| Raise (e : exn).
Arguments Ok {A} a h.
Arguments Raise {A} e.

Definition M (A : Type) := heap → outcome A.

Definition raise {A} (e : exn) : M A := λ _, Raise e.

(** Sequencing: a raised exception ends the computation. *)
Global Instance M_ret : MRet M := λ A a h, Ok a h.

Global Instance M_bind : MBind M := λ A B k m h,
  match m h with
  | Ok a h' => k a h'
  | Raise e => Raise e
  end.

(** Allocation of a new object at an unused address. *)
Definition alloc (o : object) : M addr :=
  λ h, let a := fresh (dom h) in Ok a (<[a := o]> h).

Definition load (a : addr) : M object :=
  λ h, match h !! a with
       | Some o => Ok o h
       | None => Raise DanglingRef
       end.

Definition store (a : addr) (o : object) : M unit :=
  λ h, Ok tt (<[a := o]> h).

End Py.

Import Py.

(** ** Primitive operations on objects *)

(** [[x1, ..., xn]]: a list display builds a new list object. *)
Definition list_new (items : list string) : M addr := alloc (PyList items).

(** [l.append(x)]: in-place append; only list objects have the method. *)
Definition list_append (l : addr) (x : string) : M unit :=
  o ← load l;
  match o with
  | PyList items => store l (PyList (items ++ [x]))
  | PyDocument _ => raise AttributeError
  end.

(** Reading the items of a list object, as iteration or [==] does. *)
Definition list_items (l : addr) : M (list string) :=
  o ← load l;
  match o with
  | PyList items => mret items
  | PyDocument _ => raise AttributeError
  end.

(** [self.words]. *)
Definition getattr_words (self : addr) : M addr :=
  o ← load self;
  match o with
  | PyDocument (Some w) => mret w
  | PyDocument None => raise AttributeError
  | PyList _ => raise AttributeError
  end.

(** [self.words = w]. *)
Definition setattr_words (self w : addr) : M unit :=
  o ← load self;
  match o with
  | PyDocument _ => store self (PyDocument (Some w))
  | PyList _ => raise AttributeError
  end.

(** ** The class [Document] *)

Module Document.

(** [def __init__(self, words): self.words = words] *)
Definition __init__ (self words : addr) : M unit :=
  setattr_words self words.

(** [def add_word(self, word): self.words.append(word)] *)
Definition add_word (self : addr) (word : string) : M unit :=
  l ← getattr_words self;
  list_append l word.

(** [def get_words(self): return self.words] *)
Definition get_words (self : addr) : M addr :=
  getattr_words self.

(** The call [Document(words)]: a new instance is allocated, [__init__]
    runs on it, and the instance is the value of the call. *)
Definition new (words : addr) : M addr :=
  self ← alloc (PyDocument None);
  __init__ self words;;
  mret self.

End Document.

(** [def main()] *)
Definition main : M unit :=
  words ← list_new ["Hello"];
  d ← Document.new words;
  ws ← Document.get_words d;
  d2 ← Document.new ws;
  Document.add_word d2 "world".

(** The words a client sees through a document: the items of the list
    object that [get_words] returns. *)
Definition words_of (d : addr) : M (list string) :=
  l ← Document.get_words d;
  list_items l.

(** ** Clients

    A statement about any sequence of operations quantifies over client
    code.  A client is a straight-line program over the three operations and list
    displays; every statement that yields a list or a document binds the
    next local variable of that kind, so variables are numbered in binding
    order. *)

Inductive stmt :=
| SList (items : list string)        (* x_k = [items]          *)
| SNew (x : nat)                     (* d_k = Document(x_x)    *)
| SGetWords (i : nat)                (* x_k = d_i.get_words()  *)
| SAddWord (i : nat) (w : string).   (* d_i.add_word(w)        *)

(** The local variables of a client. *)
Record frame := Frame { lists : list addr; docs : list addr }.

Definition frame0 : frame := Frame [] [].

Definition bind_list (f : frame) (l : addr) : frame :=
  Frame (lists f ++ [l]) (docs f).

Definition bind_doc (f : frame) (d : addr) : frame :=
  Frame (lists f) (docs f ++ [d]).

Definition var (vs : list addr) (i : nat) : M addr :=
  match vs !! i with
  | Some a => mret a
  | None => raise NameError
  end.

Definition exec (s : stmt) (f : frame) : M frame :=
  match s with
  | SList items => l ← list_new items; mret (bind_list f l)
  | SNew x => l ← var (lists f) x; d ← Document.new l; mret (bind_doc f d)
  | SGetWords i => d ← var (docs f) i; l ← Document.get_words d; mret (bind_list f l)
  | SAddWord i w => d ← var (docs f) i; Document.add_word d w;; mret f
  end.

Fixpoint run (p : list stmt) (f : frame) : M frame :=
  match p with
  | [] => mret f
  | s :: p' => f' ← exec s f; run p' f'
  end.

(** Every variable is bound before it is used; [nl] and [nd] count the list
    and document variables bound so far. *)
Fixpoint scoped (nl nd : nat) (p : list stmt) : bool :=
  match p with
  | [] => true
  | SList _ :: p' => scoped (S nl) nd p'
  | SNew x :: p' => bool_decide (x < nl) && scoped nl (S nd) p'
  | SGetWords i :: p' => bool_decide (i < nd) && scoped (S nl) nd p'
  | SAddWord i _ :: p' => bool_decide (i < nd) && scoped nl nd p'
  end.

(** [for w in ws: d.add_word(w)] *)
Fixpoint add_each (d : addr) (ws : list string) : M unit :=
  match ws with
  | [] => mret tt
  | w :: ws' => Document.add_word d w;; add_each d ws'
  end.

(** A second document is built from what [d1.get_words()] returns, one of
    the two receives [w], and both are read back. *)
Definition alias_then_add (d1 : addr) (on_second : bool) (w : string)
    : M (list string * list string) :=
  ws ← Document.get_words d1;
  d2 ← Document.new ws;
  Document.add_word (if on_second then d2 else d1) w;;
  a ← words_of d1;
  b ← words_of d2;
  mret (a, b).

(** ** Ledgers

    A ledger records, for each document variable, the words the document is
    expected to show.  It is specification state: a policy says how each
    statement updates it, and [run_with] threads it alongside a run. *)

Abbreviation ledger := (list (list string)).

(** The [words] attribute of the instance at [d], if any. *)
Definition attr (h : heap) (d : addr) : option addr :=
  match h !! d with
  | Some (PyDocument w) => w
  | _ => None
  end.

(** The items of the list object at [l]; nothing for a non-list. *)
Definition items_at (h : heap) (l : addr) : list string :=
  match h !! l with
  | Some (PyList items) => items
  | _ => []
  end.

(** Construction enters the sequence the document is built from; this part
    is common to all policies. *)
Definition enter (h : heap) (f : frame) (x : nat) (g : ledger) : ledger :=
  g ++ [from_option (items_at h) [] (lists f !! x)].

(** Policy of the invariant as the specification words it: a document's
    words grow by what is passed to its own [add_word]. *)
Definition track_own (h : heap) (f : frame) (s : stmt) (g : ledger) : ledger :=
  match s with
  | SNew x => enter h f x g
  | SAddWord i w => alter (λ ws, ws ++ [w]) i g
  | _ => g
  end.

(** A second reading of the same words: a document's words grow by what is
    passed to [add_word] on any document. *)
Definition track_all (h : heap) (f : frame) (s : stmt) (g : ledger) : ledger :=
  match s with
  | SNew x => enter h f x g
  | SAddWord i w => (λ ws, ws ++ [w]) <$> g
  | _ => g
  end.

(** Policy of the code: a document's words grow by what is passed to
    [add_word] on any document whose [words] is the same list object. *)
Definition shares (h : heap) (f : frame) (i j : nat) : bool :=
  match docs f !! i ≫= attr h, docs f !! j ≫= attr h with
  | Some l, Some l' => bool_decide (l = l')
  | _, _ => false
  end.

Definition track_shared (h : heap) (f : frame) (s : stmt) (g : ledger) : ledger :=
  match s with
  | SNew x => enter h f x g
  | SAddWord i w => imap (λ j ws, if shares h f i j then ws ++ [w] else ws) g
  | _ => g
  end.

Fixpoint run_with (track : heap → frame → stmt → ledger → ledger)
    (p : list stmt) (f : frame) (g : ledger) : M (frame * ledger) :=
  match p with
  | [] => mret (f, g)
  | s :: p' => λ h, (f' ← exec s f; run_with track p' f' (track h f s g)) h
  end.

(** The ledger tells the truth about a state: every document variable shows
    exactly the words the ledger has for it. *)
Definition agrees (h : heap) (f : frame) (g : ledger) : Prop :=
  length g = length (docs f) ∧
  ∀ i d, docs f !! i = Some d → ∃ ws, g !! i = Some ws ∧ words_of d h = Ok ws h.

(** The demonstration as the specification words it: a document from
    [["Hello"]], a second document from the first one's word list, and
    ["world"] appended to the second. *)
Definition demo_steps : list stmt :=
  [SList ["Hello"]; SNew 0; SGetWords 0; SNew 1; SAddWord 1 "world"].

(** Two documents over two separate lists, and a word added to the second. *)
Definition unrelated_steps : list stmt :=
  [SList ["a"]; SNew 0; SList ["b"]; SNew 1; SAddWord 1 "c"].

(** Every list variable of the client is bound to a list object. *)
Definition lists_typed (h : heap) (f : frame) : Prop :=
  ∀ x l, lists f !! x = Some l → ∃ items, h !! l = Some (PyList items).

(** A policy is sound for client [p] started on store [h]: the client runs
    to completion and the ledger agrees with the final state. *)
Definition sound_for (track : heap → frame → stmt → ledger → ledger)
    (p : list stmt) (h : heap) : Prop :=
  ∃ f g h', run_with track p frame0 [] h = Ok (f, g) h' ∧ agrees h' f g.

(** ** The module body

    [if __name__ == "__main__": main()], the last statement of the file.
    The [class] and [def] statements before it bind names and create neither
    a list nor an instance. *)
Definition module_body (__name__ : string) : M unit :=
  if String.eqb __name__ "__main__" then main else mret tt.

(** ** What a store may become

    [grows h h']: every object of [h] is still there in [h'], an instance as
    it was and a list with its old items in front. *)
Definition grows (h h' : heap) : Prop :=
  ∀ a o, h !! a = Some o →
    match o with
    | PyList items => ∃ more, h' !! a = Some (PyList (items ++ more))
    | PyDocument _ => h' !! a = Some o
    end.

(** Every document variable of the client is bound to a document over a
    list. *)
Definition docs_typed (h : heap) (f : frame) : Prop :=
  ∀ i d, docs f !! i = Some d → ∃ ws, words_of d h = Ok ws h.

(** ** Origins

    Which list display a variable stems from, read off the client's text:
    displays are numbered in order, a document takes the origin of the list
    it is built from, and the list [get_words] yields takes the origin of
    its document. *)
Record origins := Origins {
  lorig : list nat;     (* per list variable *)
  dorig : list nat;     (* per document variable *)
  displays : nat        (* list displays so far *)
}.

Definition origins0 : origins := Origins [] [] 0.

Definition origin_step (s : stmt) (o : origins) : origins :=
  match s with
  | SList _ => Origins (lorig o ++ [displays o]) (dorig o) (S (displays o))
  | SNew x => Origins (lorig o) (dorig o ++ [default 0 (lorig o !! x)]) (displays o)
  | SGetWords i => Origins (lorig o ++ [default 0 (dorig o !! i)]) (dorig o) (displays o)
  | SAddWord _ _ => o
  end.

Fixpoint origins_from (p : list stmt) (o : origins) : origins :=
  match p with
  | [] => o
  | s :: p' => origins_from p' (origin_step s o)
  end.

Definition origins_of (p : list stmt) : origins := origins_from p origins0.

(** The origins describe a state: [tbl] lists the list objects of the
    displays in order, without repetition, and every variable is bound to
    the list object of its origin, a document variable through its
    [words]. *)
Definition tracks (h : heap) (f : frame) (o : origins) (tbl : list addr) : Prop :=
  NoDup tbl ∧
  length tbl = displays o ∧
  length (lorig o) = length (lists f) ∧
  length (dorig o) = length (docs f) ∧
  (∀ k l, tbl !! k = Some l → ∃ items, h !! l = Some (PyList items)) ∧
  (∀ x l, lists f !! x = Some l → ∃ k, lorig o !! x = Some k ∧ tbl !! k = Some l) ∧
  (∀ i d, docs f !! i = Some d →
     ∃ k l, dorig o !! i = Some k ∧ tbl !! k = Some l ∧
            h !! d = Some (PyDocument (Some l))).

(** ** Equations of the primitives *)

Section primitives.
Context {A B : Type}.
Implicit Types (h : heap) (a l d : addr) (items : list string).

Lemma bind_Ok (m : M A) (k : A → M B) h x h' :
  m h = Ok x h' → (m ≫= k) h = k x h'.
Proof. intros E. unfold mbind, M_bind. by rewrite E. Qed.

Lemma bind_Raise (m : M A) (k : A → M B) h e :
  m h = Raise e → (m ≫= k) h = Raise e.
Proof. intros E. unfold mbind, M_bind. by rewrite E. Qed.

Lemma bind_inv_Ok (m : M A) (k : A → M B) h y h2 :
  (m ≫= k) h = Ok y h2 → ∃ x h1, m h = Ok x h1 ∧ k x h1 = Ok y h2.
Proof.
  unfold mbind, M_bind. destruct (m h) as [x h1|e]; [|done].
  intros E. by exists x, h1.
Qed.

End primitives.

Section objects.
Implicit Types (h : heap) (a l d : addr) (items : list string).

Lemma load_Some h a o : h !! a = Some o → load a h = Ok o h.
Proof. intros E. unfold load. by rewrite E. Qed.

Lemma alloc_fresh h : h !! fresh (dom h) = None.
Proof. apply not_elem_of_dom, is_fresh. Qed.

Lemma alloc_keeps h o a x :
  h !! a = Some x → <[fresh (dom h) := o]> h !! a = Some x.
Proof.
  intros E. rewrite lookup_insert_ne; [done|].
  intros Heq. rewrite <- Heq, alloc_fresh in E. done.
Qed.

Lemma list_items_Ok h l items :
  h !! l = Some (PyList items) → list_items l h = Ok items h.
Proof. intros E. unfold list_items. by rewrite (bind_Ok _ _ _ _ _ (load_Some _ _ _ E)). Qed.

Lemma list_items_inv h l items h' :
  list_items l h = Ok items h' → h !! l = Some (PyList items) ∧ h' = h.
Proof.
  unfold list_items, mbind, M_bind, load.
  destruct (h !! l) as [[xs|w]|]; [|done..].
  unfold mret, M_ret. by intros [= -> ->].
Qed.

Lemma list_append_Ok h l items x :
  h !! l = Some (PyList items) →
  list_append l x h = Ok tt (<[l := PyList (items ++ [x])]> h).
Proof. intros E. unfold list_append. by rewrite (bind_Ok _ _ _ _ _ (load_Some _ _ _ E)). Qed.

Lemma getattr_words_Ok h d l :
  h !! d = Some (PyDocument (Some l)) → getattr_words d h = Ok l h.
Proof. intros E. unfold getattr_words. by rewrite (bind_Ok _ _ _ _ _ (load_Some _ _ _ E)). Qed.

Lemma getattr_words_inv h d l h' :
  getattr_words d h = Ok l h' → h !! d = Some (PyDocument (Some l)) ∧ h' = h.
Proof.
  unfold getattr_words, mbind, M_bind, load.
  destruct (h !! d) as [[xs|[w|]]|]; [done| |done..].
  unfold mret, M_ret. by intros [= -> ->].
Qed.

Lemma setattr_words_Ok h d w l :
  h !! d = Some (PyDocument w) →
  setattr_words d l h = Ok tt (<[d := PyDocument (Some l)]> h).
Proof. intros E. unfold setattr_words. by rewrite (bind_Ok _ _ _ _ _ (load_Some _ _ _ E)). Qed.

End objects.

(** ** Equations of the methods *)

Section methods.
Implicit Types (h : heap) (a l d : addr) (items : list string).

(** [Document(l)] allocates one instance whose attribute is [l]; no other
    object is touched and [l] itself is not inspected. *)
Lemma new_Ok h l :
  Document.new l h
  = Ok (fresh (dom h)) (<[fresh (dom h) := PyDocument (Some l)]> h).
Proof.
  unfold Document.new, Document.__init__.
  rewrite (bind_Ok _ _ h (fresh (dom h)) (<[fresh (dom h) := PyDocument None]> h));
    [|done].
  erewrite bind_Ok; [|apply (setattr_words_Ok _ _ None), lookup_insert_eq].
  by rewrite insert_insert_eq.
Qed.

Lemma get_words_Ok h d l :
  h !! d = Some (PyDocument (Some l)) → Document.get_words d h = Ok l h.
Proof. apply getattr_words_Ok. Qed.

Lemma add_word_Ok h d l items w :
  h !! d = Some (PyDocument (Some l)) →
  h !! l = Some (PyList items) →
  Document.add_word d w h = Ok tt (<[l := PyList (items ++ [w])]> h).
Proof.
  intros Hd Hl. unfold Document.add_word.
  rewrite (bind_Ok _ _ _ _ _ (getattr_words_Ok _ _ _ Hd)).
  by apply list_append_Ok.
Qed.

(** A document shows the words [items] exactly when its attribute is a
    list object holding [items]. *)
Lemma words_of_Ok h d l items :
  h !! d = Some (PyDocument (Some l)) →
  h !! l = Some (PyList items) →
  words_of d h = Ok items h.
Proof.
  intros Hd Hl. unfold words_of.
  rewrite (bind_Ok _ _ _ _ _ (get_words_Ok _ _ _ Hd)).
  by apply list_items_Ok.
Qed.

Lemma words_of_inv h d items h' :
  words_of d h = Ok items h' →
  h' = h ∧ ∃ l, h !! d = Some (PyDocument (Some l)) ∧ h !! l = Some (PyList items).
Proof.
  intros E. apply bind_inv_Ok in E as (l & h1 & E1 & E2).
  apply getattr_words_inv in E1 as [Hd ->].
  apply list_items_inv in E2 as [Hl ->]. eauto.
Qed.

End methods.

(** ** Frames: what an operation leaves alone *)

Section frames.
Implicit Types (h : heap) (a l d : addr) (items : list string).

(** Appending to a list object does not disturb any instance: an address
    holds one object, so a list is never an instance. *)
Lemma append_keeps_doc h l items items' d w :
  h !! l = Some (PyList items) →
  h !! d = Some (PyDocument w) →
  <[l := PyList items']> h !! d = Some (PyDocument w).
Proof.
  intros Hl Hd. rewrite lookup_insert_ne; [done|].
  intros ->. rewrite Hl in Hd. done.
Qed.

(** What a document shows right after the call that built it. *)
Lemma new_words_of h l items :
  h !! l = Some (PyList items) →
  words_of (fresh (dom h)) (<[fresh (dom h) := PyDocument (Some l)]> h)
  = Ok items (<[fresh (dom h) := PyDocument (Some l)]> h).
Proof.
  intros Hl. apply (words_of_Ok _ _ l); [apply lookup_insert_eq|].
  by apply alloc_keeps.
Qed.

(** [add_word] in terms of what documents show: the receiver, and every
    document on the same list object, shows one more word. *)
Lemma add_word_shared h d d' l items w :
  h !! d = Some (PyDocument (Some l)) →
  h !! d' = Some (PyDocument (Some l)) →
  h !! l = Some (PyList items) →
  words_of d' (<[l := PyList (items ++ [w])]> h)
  = Ok (items ++ [w]) (<[l := PyList (items ++ [w])]> h).
Proof.
  intros Hd Hd' Hl. apply (words_of_Ok _ _ l); [|apply lookup_insert_eq].
  by eapply append_keeps_doc.
Qed.

(** ... and a document on another list object shows what it showed. *)
Lemma add_word_other h d' l l' items items' w :
  h !! d' = Some (PyDocument (Some l')) →
  h !! l = Some (PyList items) →
  h !! l' = Some (PyList items') →
  l ≠ l' →
  words_of d' (<[l := PyList (items ++ [w])]> h)
  = Ok items' (<[l := PyList (items ++ [w])]> h).
Proof.
  intros Hd' Hl Hl' Hne. apply (words_of_Ok _ _ l').
  - by eapply append_keeps_doc.
  - by rewrite lookup_insert_ne.
Qed.

End frames.

(** ** Clients preserve typing and the sharing ledger *)

Section clients.
Implicit Types (h : heap) (f : frame) (g : ledger) (p : list stmt).

Lemma var_Ok (vs : list addr) i a h : vs !! i = Some a → var vs i h = Ok a h.
Proof. intros E. unfold var. by rewrite E. Qed.

Lemma words_of_alloc h d ws o :
  words_of d h = Ok ws h →
  words_of d (<[fresh (dom h) := o]> h) = Ok ws (<[fresh (dom h) := o]> h).
Proof.
  intros Hw. apply words_of_inv in Hw as (_ & l & Hd & Hl).
  apply (words_of_Ok _ _ l); by apply alloc_keeps.
Qed.

Lemma lists_typed_alloc h f o :
  lists_typed h f → lists_typed (<[fresh (dom h) := o]> h) f.
Proof.
  intros Ht x l Hx. destruct (Ht x l Hx) as [items Hl].
  exists items. by apply alloc_keeps.
Qed.

Lemma lists_typed_bind h f l items :
  lists_typed h f → h !! l = Some (PyList items) → lists_typed h (bind_list f l).
Proof.
  intros Ht Hl x l' Hx. simpl in Hx.
  apply lookup_snoc_Some in Hx as [[_ Hx]|[_ <-]]; [by eapply Ht|by exists items].
Qed.

Lemma agrees_alloc h f g o :
  agrees h f g → agrees (<[fresh (dom h) := o]> h) f g.
Proof.
  intros [Hlen Hag]. split; [done|]. intros i d Hi.
  destruct (Hag i d Hi) as (ws & Hg & Hw). exists ws.
  split; [done|]. by apply words_of_alloc.
Qed.

(** One statement: in a typed state that the ledger describes, a statement
    whose variables are bound runs, and the state it leaves is typed and
    described by the ledger as the sharing policy updates it. *)
Lemma exec_shared s p f g h :
  scoped (length (lists f)) (length (docs f)) (s :: p) = true →
  lists_typed h f → agrees h f g →
  ∃ f' h', exec s f h = Ok f' h' ∧
           scoped (length (lists f')) (length (docs f')) p = true ∧
           lists_typed h' f' ∧ agrees h' f' (track_shared h f s g).
Proof.
  intros Hs Ht Hag. destruct s as [items|x|i|i w]; simpl in Hs.
  - (* x_k = [items] *)
    set (l := fresh (dom h)). set (h1 := <[l := PyList items]> h).
    exists (bind_list f l), h1. split; [done|]. split.
    { simpl. rewrite length_app. simpl. by rewrite Nat.add_1_r. }
    split; [|by apply agrees_alloc].
    eapply lists_typed_bind; [by apply lists_typed_alloc|apply lookup_insert_eq].
  - (* d_k = Document(x_x) *)
    apply andb_prop in Hs as [Hx Hs]. apply bool_decide_eq_true_1 in Hx.
    apply lookup_lt_is_Some_2 in Hx as [l Hx].
    destruct (Ht x l Hx) as [items Hl].
    set (d := fresh (dom h)). set (h1 := <[d := PyDocument (Some l)]> h).
    exists (bind_doc f d), h1. split.
    { simpl. rewrite (bind_Ok _ _ _ _ _ (var_Ok _ _ _ h Hx)).
      by rewrite (bind_Ok _ _ _ _ _ (new_Ok h l)). }
    split.
    { simpl. rewrite length_app. simpl. by rewrite Nat.add_1_r. }
    split; [by apply lists_typed_alloc|].
    destruct Hag as [Hlen Hag]. unfold track_shared, enter. rewrite Hx. simpl.
    unfold items_at. rewrite Hl. split.
    { simpl. rewrite !length_app. simpl. by rewrite Hlen. }
    intros i d' Hi. simpl in Hi.
    apply lookup_snoc_Some in Hi as [[Hlt Hi]|[Hi <-]].
    + destruct (Hag i d' Hi) as (ws & Hg & Hw). exists ws. split.
      * by apply lookup_app_l_Some.
      * by apply words_of_alloc.
    + exists items. split.
      * rewrite Hi, <- Hlen. by apply list_lookup_middle.
      * by apply new_words_of.
  - (* x_k = d_i.get_words() *)
    apply andb_prop in Hs as [Hi Hs]. apply bool_decide_eq_true_1 in Hi.
    apply lookup_lt_is_Some_2 in Hi as [d Hi].
    destruct (proj2 Hag i d Hi) as (ws & Hg & Hw).
    apply words_of_inv in Hw as (_ & l & Hd & Hl).
    exists (bind_list f l), h. split.
    { simpl. rewrite (bind_Ok _ _ _ _ _ (var_Ok _ _ _ h Hi)).
      by rewrite (bind_Ok _ _ _ _ _ (get_words_Ok _ _ _ Hd)). }
    split.
    { simpl. rewrite length_app. simpl. by rewrite Nat.add_1_r. }
    split; [by eapply lists_typed_bind|done].
  - (* d_i.add_word(w) *)
    apply andb_prop in Hs as [Hi Hs]. apply bool_decide_eq_true_1 in Hi.
    apply lookup_lt_is_Some_2 in Hi as [d Hi].
    destruct Hag as [Hlen Hag].
    destruct (Hag i d Hi) as (ws & Hg & Hw).
    apply words_of_inv in Hw as (_ & l & Hd & Hl).
    set (h1 := <[l := PyList (ws ++ [w])]> h).
    exists f, h1. split.
    { simpl. rewrite (bind_Ok _ _ _ _ _ (var_Ok _ _ _ h Hi)).
      by rewrite (bind_Ok _ _ _ _ _ (add_word_Ok _ _ _ _ w Hd Hl)). }
    split; [done|]. split.
    { intros x l' Hx. unfold h1. destruct (decide (l = l')) as [<-|Hne].
      - exists (ws ++ [w]). apply lookup_insert_eq.
      - destruct (Ht x l' Hx) as [items' Hl']. exists items'.
        by rewrite lookup_insert_ne. }
    unfold track_shared. split; [by rewrite length_imap|].
    intros j d' Hj. destruct (Hag j d' Hj) as (ws' & Hg' & Hw').
    apply words_of_inv in Hw' as (_ & l' & Hd' & Hl').
    assert (Hsh : shares h f i j = bool_decide (l = l')).
    { unfold shares, attr. rewrite Hi, Hj. simpl. by rewrite Hd, Hd'. }
    destruct (decide (l = l')) as [<-|Hne].
    + assert (ws' = ws) as -> by congruence.
      exists (ws ++ [w]). split; [|by eapply add_word_shared].
      rewrite list_lookup_imap, Hg'. simpl.
      by rewrite Hsh, bool_decide_eq_true_2.
    + exists ws'. split; [|by eapply add_word_other].
      rewrite list_lookup_imap, Hg'. simpl.
      by rewrite Hsh, bool_decide_eq_false_2.
Qed.

Lemma run_with_shared p f g h :
  scoped (length (lists f)) (length (docs f)) p = true →
  lists_typed h f → agrees h f g →
  ∃ f' g' h', run_with track_shared p f g h = Ok (f', g') h' ∧ agrees h' f' g'.
Proof.
  revert f g h. induction p as [|s p IH]; intros f g h Hs Ht Hag.
  - by exists f, g, h.
  - destruct (exec_shared s p f g h Hs Ht Hag) as (f1 & h1 & He & Hs1 & Ht1 & Hag1).
    destruct (IH f1 (track_shared h f s g) h1 Hs1 Ht1 Hag1) as (f' & g' & h' & Hr & Hag').
    exists f', g', h'. split; [|done].
    simpl. by rewrite (bind_Ok _ _ _ _ _ He).
Qed.

(** A run with a ledger is a run. *)
Lemma run_with_run track p f g h f' g' h' :
  run_with track p f g h = Ok (f', g') h' → run p f h = Ok f' h'.
Proof.
  revert f g h. induction p as [|s p IH]; intros f g h; simpl.
  - unfold mret, M_ret. by intros [= -> -> ->].
  - intros Hr. apply bind_inv_Ok in Hr as (f1 & h1 & He & Hr).
    rewrite (bind_Ok _ _ _ _ _ He). by eapply IH.
Qed.

Lemma agrees_frame0 h : lists_typed h frame0 ∧ agrees h frame0 [].
Proof.
  split; [intros x l Hx; by destruct x|].
  split; [done|]. intros i d Hi. by destruct i.
Qed.

End clients.

(** ** The specification, property by property *)

(** C1.  For every sequence [S] and string [w]: a document built from a list
    object holding [S], after [add_word(w)], returns from [get_words()] that
    same list object, which now holds [S] followed by [w]. *)
Theorem add_word_then_get_words (h : heap) (l : addr) (S : list string) (w : string) :
  list_items l h = Ok S h →
  ∃ h', (d ← Document.new l;
         Document.add_word d w;;
         r ← Document.get_words d;
         items ← list_items r;
         mret (r, items)) h
        = Ok (l, S ++ [w]) h'.
Proof.
  intros Hl. apply list_items_inv in Hl as [Hl _].
  set (d := fresh (dom h)). set (h1 := <[d := PyDocument (Some l)]> h).
  assert (Hd1 : h1 !! d = Some (PyDocument (Some l))) by apply lookup_insert_eq.
  assert (Hl1 : h1 !! l = Some (PyList S)) by by apply alloc_keeps.
  set (h2 := <[l := PyList (S ++ [w])]> h1).
  assert (Hd2 : h2 !! d = Some (PyDocument (Some l))) by by eapply append_keeps_doc.
  exists h2.
  rewrite (bind_Ok _ _ _ _ _ (new_Ok h l)).
  rewrite (bind_Ok _ _ _ _ _ (add_word_Ok _ _ _ _ w Hd1 Hl1)).
  rewrite (bind_Ok _ _ _ _ _ (get_words_Ok _ _ _ Hd2)).
  rewrite (bind_Ok _ _ h2 (S ++ [w]) h2); [done|].
  apply list_items_Ok, lookup_insert_eq.
Qed.

Lemma add_word_then_get_words_witness :
  ∃ h', (d ← Document.new 1%positive;
         Document.add_word d "foo";;
         r ← Document.get_words d;
         items ← list_items r;
         mret (r, items)) {[ 1%positive := PyList ["Hello"] ]}
        = Ok (1%positive, ["Hello"] ++ ["foo"]) h'.
Proof.
  apply (add_word_then_get_words {[ 1%positive := PyList ["Hello"] ]}
           1%positive ["Hello"] "foo").
  vm_compute. reflexivity.
Defined.

(** C4.  Construction stores the given sequence as is: the call
    [Document(l)] only adds the new instance to the store, and [get_words()]
    on it returns [l] itself; so a document built from a list display of any
    [S] shows [S], and one built from the empty display shows no words. *)
Theorem construct_stores_as_is (h : heap) :
  (∀ l, ∃ d, h !! d = None ∧
     (d ← Document.new l; Document.get_words d) h
     = Ok l (<[d := PyDocument (Some l)]> h)) ∧
  (∀ S, ∃ h', (l ← list_new S;
               d ← Document.new l;
               r ← Document.get_words d;
               items ← list_items r;
               mret (bool_decide (r = l), items)) h
              = Ok (true, S) h') ∧
  (∃ h', (l ← list_new []; d ← Document.new l; words_of d) h = Ok [] h').
Proof.
  assert (Hnew : ∀ S, ∃ l d h',
    h' !! d = Some (PyDocument (Some l)) ∧ h' !! l = Some (PyList S) ∧
    ∀ B (k : addr → addr → M B),
      (l ← list_new S; d ← Document.new l; k l d) h = k l d h').
  { intros S. set (l := fresh (dom h)). set (h1 := <[l := PyList S]> h).
    exists l, (fresh (dom h1)), (<[fresh (dom h1) := PyDocument (Some l)]> h1).
    split; [apply lookup_insert_eq|]. split.
    - apply alloc_keeps, lookup_insert_eq.
    - intros B k. rewrite (bind_Ok _ _ h l h1); [|done].
      by rewrite (bind_Ok _ _ _ _ _ (new_Ok h1 l)). }
  split; [|split].
  - intros l. exists (fresh (dom h)). split; [apply alloc_fresh|].
    rewrite (bind_Ok _ _ _ _ _ (new_Ok h l)).
    apply get_words_Ok, lookup_insert_eq.
  - intros S. destruct (Hnew S) as (l & d & h' & Hd & Hl & Hrun).
    exists h'. rewrite Hrun.
    rewrite (bind_Ok _ _ _ _ _ (get_words_Ok _ _ _ Hd)).
    rewrite (bind_Ok _ _ _ _ _ (list_items_Ok _ _ _ Hl)).
    by rewrite bool_decide_eq_true_2.
  - destruct (Hnew []) as (l & d & h' & Hd & Hl & Hrun).
    exists h'. rewrite Hrun. by apply (words_of_Ok _ _ l).
Qed.

(** C3.  A second document built from the first one's [get_words()] result
    holds the same list object: whichever of the two receives [add_word(w)],
    both show the old words followed by [w].  In particular, with
    [d1 = Document(["Hello"])] and [d2 = Document(d1.get_words())], after
    [d2.add_word("world")] the word ["world"] shows in [d1]. *)
Theorem second_document_shares_list (h : heap) (d1 : addr) (items : list string)
    (w : string) (on_second : bool) :
  words_of d1 h = Ok items h →
  (∃ l d2 h1,
     (ws ← Document.get_words d1; Document.new ws) h = Ok d2 h1 ∧
     Document.get_words d1 h1 = Ok l h1 ∧
     Document.get_words d2 h1 = Ok l h1) ∧
  (∃ h', alias_then_add d1 on_second w h
         = Ok (items ++ [w], items ++ [w]) h') ∧
  (∀ h0, ∃ h', (words ← list_new ["Hello"];
                d ← Document.new words;
                alias_then_add d true "world") h0
               = Ok (["Hello"; "world"], ["Hello"; "world"]) h').
Proof.
  assert (Hgen : ∀ h d1 items w on_second, words_of d1 h = Ok items h →
    ∃ h', alias_then_add d1 on_second w h = Ok (items ++ [w], items ++ [w]) h').
  { clear. intros h d1 items w on_second Hw.
    apply words_of_inv in Hw as (_ & l & Hd & Hl).
    set (d2 := fresh (dom h)). set (h1 := <[d2 := PyDocument (Some l)]> h).
    assert (Hd1 : h1 !! d1 = Some (PyDocument (Some l))) by by apply alloc_keeps.
    assert (Hd2 : h1 !! d2 = Some (PyDocument (Some l))) by apply lookup_insert_eq.
    assert (Hl1 : h1 !! l = Some (PyList items)) by by apply alloc_keeps.
    set (h2 := <[l := PyList (items ++ [w])]> h1).
    exists h2. unfold alias_then_add.
    rewrite (bind_Ok _ _ _ _ _ (get_words_Ok _ _ _ Hd)).
    rewrite (bind_Ok _ _ _ _ _ (new_Ok h l)).
    rewrite (bind_Ok _ _ h1 tt h2).
    2:{ destruct on_second; by eapply add_word_Ok. }
    rewrite (bind_Ok _ _ _ _ _ (add_word_shared h1 d1 d1 l items w Hd1 Hd1 Hl1)).
    by rewrite (bind_Ok _ _ _ _ _ (add_word_shared h1 d1 d2 l items w Hd1 Hd2 Hl1)). }
  intros Hw. split; [|split].
  - apply words_of_inv in Hw as (_ & l & Hd & Hl).
    exists l, (fresh (dom h)), (<[fresh (dom h) := PyDocument (Some l)]> h).
    rewrite (bind_Ok _ _ _ _ _ (get_words_Ok _ _ _ Hd)).
    split; [apply new_Ok|]. split; apply get_words_Ok.
    + by apply alloc_keeps.
    + apply lookup_insert_eq.
  - by apply Hgen.
  - intros h0. set (l := fresh (dom h0)). set (h1 := <[l := PyList ["Hello"]]> h0).
    rewrite (bind_Ok _ _ h0 l h1); [|done].
    rewrite (bind_Ok _ _ _ _ _ (new_Ok h1 l)).
    apply (Hgen _ _ ["Hello"]), new_words_of, lookup_insert_eq.
Qed.

Lemma second_document_shares_list_witness :
  ∃ h', alias_then_add 2%positive true "world"
          {[ 1%positive := PyList ["Hello"];
             2%positive := PyDocument (Some 1%positive) ]}
        = Ok (["Hello"] ++ ["world"], ["Hello"] ++ ["world"]) h'.
Proof.
  refine (proj1 (proj2 (second_document_shares_list
    {[ 1%positive := PyList ["Hello"]; 2%positive := PyDocument (Some 1%positive) ]}
    2%positive ["Hello"] "world" true _))).
  vm_compute. reflexivity.
Defined.

(** C5.  For every document and every [n]: [n] calls of [add_word], with
    words [w1..wn], append exactly those words in call order, and the
    sequence [get_words()] returns is longer by exactly [n]. *)
Theorem add_word_n_times (h : heap) (d : addr) (items ws : list string) (n : nat) :
  words_of d h = Ok items h →
  length ws = n →
  ∃ h' items', add_each d ws h = Ok tt h' ∧
               words_of d h' = Ok items' h' ∧
               items' = items ++ ws ∧
               length items' = length items + n.
Proof.
  intros Hw <-. revert h items Hw.
  induction ws as [|w ws IH]; intros h items Hw.
  - exists h, items. rewrite app_nil_r. simpl. by rewrite Nat.add_0_r.
  - apply words_of_inv in Hw as (_ & l & Hd & Hl).
    destruct (IH (<[l := PyList (items ++ [w])]> h) (items ++ [w]))
      as (h' & items' & Hrun & Hw' & -> & Hlen).
    { by eapply add_word_shared. }
    exists h', ((items ++ [w]) ++ ws). split.
    + simpl. by rewrite (bind_Ok _ _ _ _ _ (add_word_Ok _ _ _ _ w Hd Hl)).
    + split; [done|]. rewrite <- app_assoc. split; [done|].
      rewrite length_app. done.
Qed.

Lemma add_word_n_times_witness :
  ∃ h' items',
    add_each 2%positive ["foo"; "world"]
      {[ 1%positive := PyList ["Hello"]; 2%positive := PyDocument (Some 1%positive) ]}
    = Ok tt h' ∧
    words_of 2%positive h' = Ok items' h' ∧
    items' = ["Hello"] ++ ["foo"; "world"] ∧
    length items' = length ["Hello"] + 2.
Proof.
  apply (add_word_n_times
    {[ 1%positive := PyList ["Hello"]; 2%positive := PyDocument (Some 1%positive) ]}
    2%positive ["Hello"] ["foo"; "world"] 2).
  - vm_compute. reflexivity.
  - reflexivity.
Defined.

(** C8.  [get_words] has no side effect: on every initialised instance it
    returns the attribute and leaves the whole store as it was, so two calls
    in a row return the same object, and the same words when read. *)
Theorem get_words_no_side_effect (h : heap) (d l : addr) :
  h !! d = Some (PyDocument (Some l)) →
  Document.get_words d h = Ok l h ∧
  (r1 ← Document.get_words d; r2 ← Document.get_words d; mret (r1, r2)) h
  = Ok (l, l) h ∧
  (∀ items, words_of d h = Ok items h →
     (a ← words_of d; b ← words_of d; mret (a, b)) h = Ok (items, items) h).
Proof.
  intros Hd. pose proof (get_words_Ok _ _ _ Hd) as Hg.
  split; [done|]. split.
  - by rewrite !(bind_Ok _ _ _ _ _ Hg).
  - intros items Hw. by rewrite !(bind_Ok _ _ _ _ _ Hw).
Qed.

Lemma get_words_no_side_effect_witness :
  Document.get_words 2%positive
    {[ 1%positive := PyList ["Hello"]; 2%positive := PyDocument (Some 1%positive) ]}
  = Ok 1%positive
    {[ 1%positive := PyList ["Hello"]; 2%positive := PyDocument (Some 1%positive) ]}.
Proof.
  refine (proj1 (get_words_no_side_effect
    {[ 1%positive := PyList ["Hello"]; 2%positive := PyDocument (Some 1%positive) ]}
    2%positive 1%positive _)).
  vm_compute. reflexivity.
Defined.




(** The store [main] leaves: three new objects, the list holding both words
    and two instances whose [words] is that list. *)
Lemma main_Ok (h : heap) :
  let words := fresh (dom h) in
  let h1 := <[words := PyList ["Hello"]]> h in
  let d := fresh (dom h1) in
  let h2 := <[d := PyDocument (Some words)]> h1 in
  let d2 := fresh (dom h2) in
  let h3 := <[d2 := PyDocument (Some words)]> h2 in
  main h = Ok tt (<[words := PyList ["Hello"; "world"]]> h3) ∧
  run demo_steps frame0 h
  = Ok (Frame [words; words] [d; d2]) (<[words := PyList ["Hello"; "world"]]> h3).
Proof.
  intros words h1 d h2 d2 h3.
  assert (Hd2 : h2 !! d = Some (PyDocument (Some words))) by apply lookup_insert_eq.
  assert (Hd3 : h3 !! d2 = Some (PyDocument (Some words))) by apply lookup_insert_eq.
  assert (Hl3 : h3 !! words = Some (PyList ["Hello"])).
  { do 2 apply alloc_keeps. apply lookup_insert_eq. }
  assert (Hnew1 : list_new ["Hello"] h = Ok words h1) by done.
  pose proof (new_Ok h1 words) as Hnew2. fold d h2 in Hnew2.
  pose proof (new_Ok h2 words) as Hnew3. fold d2 h3 in Hnew3.
  pose proof (get_words_Ok _ _ _ Hd2) as Hget.
  pose proof (add_word_Ok _ _ _ _ "world" Hd3 Hl3) as Hadd.
  split.
  - unfold main.
    rewrite (bind_Ok _ _ _ _ _ Hnew1), (bind_Ok _ _ _ _ _ Hnew2).
    by rewrite (bind_Ok _ _ _ _ _ Hget), (bind_Ok _ _ _ _ _ Hnew3).
  - simpl. unfold var. simpl.
    rewrite (bind_Ok _ _ h (Frame [words] []) h1).
    2:{ by rewrite (bind_Ok _ _ _ _ _ Hnew1). }
    rewrite (bind_Ok _ _ h1 (Frame [words] [d]) h2).
    2:{ simpl. rewrite (bind_Ok _ _ h1 words h1); [|done].
        by rewrite (bind_Ok _ _ _ _ _ Hnew2). }
    rewrite (bind_Ok _ _ h2 (Frame [words; words] [d]) h2).
    2:{ simpl. rewrite (bind_Ok _ _ h2 d h2); [|done].
        by rewrite (bind_Ok _ _ _ _ _ Hget). }
    rewrite (bind_Ok _ _ h2 (Frame [words; words] [d; d2]) h3).
    2:{ simpl. rewrite (bind_Ok _ _ h2 words h2); [|done].
        by rewrite (bind_Ok _ _ _ _ _ Hnew3). }
    rewrite (bind_Ok _ _ h3 (Frame [words; words] [d; d2])
               (<[words := PyList ["Hello"; "world"]]> h3)); [done|].
    simpl. rewrite (bind_Ok _ _ h3 d2 h3); [|done].
    by rewrite (bind_Ok _ _ _ _ _ Hadd).
Qed.

(** C7.  The demonstration builds a document from [["Hello"]], builds a
    second document from the first one's word list and appends ["world"] to
    the second, then returns normally: from every store, [main] returns
    [None] and leaves exactly three new objects, the list, now holding both
    words, and two instances sharing it, which is also where the steps as the
    specification lists them lead.  [main] has no input but the store. *)
Theorem main_demonstration (h : heap) :
  ∃ words d d2,
    h !! words = None ∧ h !! d = None ∧ h !! d2 = None ∧
    words ≠ d ∧ words ≠ d2 ∧ d ≠ d2 ∧
    main h = Ok tt (<[words := PyList ["Hello"; "world"]]>
                      (<[d2 := PyDocument (Some words)]>
                         (<[d := PyDocument (Some words)]> h))) ∧
    run demo_steps frame0 h
    = Ok (Frame [words; words] [d; d2])
         (<[words := PyList ["Hello"; "world"]]>
            (<[d2 := PyDocument (Some words)]>
               (<[d := PyDocument (Some words)]> h))).
Proof.
  destruct (main_Ok h) as [Hmain Hrun].
  set (words := fresh (dom h)) in *.
  set (h1 := <[words := PyList ["Hello"]]> h) in *.
  set (d := fresh (dom h1)) in *.
  set (h2 := <[d := PyDocument (Some words)]> h1) in *.
  set (d2 := fresh (dom h2)) in *.
  assert (Hw : h !! words = None) by apply alloc_fresh.
  assert (Hd1 : h1 !! d = None) by apply alloc_fresh.
  assert (Hd2 : h2 !! d2 = None) by apply alloc_fresh.
  assert (Hwd : words ≠ d).
  { intros E. rewrite <- E in Hd1. unfold h1 in Hd1.
    by rewrite lookup_insert_eq in Hd1. }
  assert (Hdd : d ≠ d2).
  { intros E. rewrite <- E in Hd2. unfold h2 in Hd2.
    by rewrite lookup_insert_eq in Hd2. }
  assert (Hwd2 : words ≠ d2).
  { intros E. rewrite <- E in Hd2. unfold h2, h1 in Hd2.
    rewrite lookup_insert_ne, lookup_insert_eq in Hd2; done. }
  assert (Hh : <[words := PyList ["Hello"; "world"]]>
                 (<[d2 := PyDocument (Some words)]> h2)
               = <[words := PyList ["Hello"; "world"]]>
                   (<[d2 := PyDocument (Some words)]>
                      (<[d := PyDocument (Some words)]> h))).
  { unfold h2, h1.
    rewrite (insert_insert_ne _ d words), (insert_insert_ne _ d2 words) by done.
    by rewrite insert_insert_eq. }
  exists words, d, d2. rewrite <- Hh.
  repeat split; try done.
  - unfold h1 in Hd1. by rewrite lookup_insert_ne in Hd1.
  - unfold h2, h1 in Hd2. by rewrite !lookup_insert_ne in Hd2.
Qed.





Example main_runs : main ∅ = Ok tt {[ 1%positive := PyList ["Hello"; "world"];
                                      2%positive := PyDocument (Some 1%positive);
                                      3%positive := PyDocument (Some 1%positive) ]}.
Proof. vm_compute. reflexivity. Qed.

(** ** Beyond the specification: isolation, order and aliasing *)

Section more_equations.
Implicit Types (h : heap) (a l d : addr) (items : list string).

(** A run of [add_word] calls in one step: the list object of the receiver
    ends with all the words, and nothing else changes. *)
Lemma add_each_Ok h d l items ws :
  h !! d = Some (PyDocument (Some l)) →
  h !! l = Some (PyList items) →
  add_each d ws h = Ok tt (<[l := PyList (items ++ ws)]> h).
Proof.
  revert h items. induction ws as [|w ws IH]; intros h items Hd Hl.
  - rewrite app_nil_r, insert_id; done.
  - simpl. rewrite (bind_Ok _ _ _ _ _ (add_word_Ok _ _ _ _ w Hd Hl)).
    rewrite (IH _ (items ++ [w])).
    + by rewrite insert_insert_eq, <- app_assoc.
    + by eapply append_keeps_doc.
    + apply lookup_insert_eq.
Qed.

Lemma list_append_not_list h l w x :
  h !! l = Some (PyDocument w) → list_append l x h = Raise AttributeError.
Proof. intros E. unfold list_append. by rewrite (bind_Ok _ _ _ _ _ (load_Some _ _ _ E)). Qed.

Lemma list_items_not_list h l w :
  h !! l = Some (PyDocument w) → list_items l h = Raise AttributeError.
Proof. intros E. unfold list_items. by rewrite (bind_Ok _ _ _ _ _ (load_Some _ _ _ E)). Qed.

Lemma getattr_words_not_doc h l items :
  h !! l = Some (PyList items) → getattr_words l h = Raise AttributeError.
Proof. intros E. unfold getattr_words. by rewrite (bind_Ok _ _ _ _ _ (load_Some _ _ _ E)). Qed.

Lemma snoc_swap_inv (xs : list string) (a b : string) :
  (xs ++ [a]) ++ [b] = (xs ++ [b]) ++ [a] → a = b.
Proof.
  rewrite <- !app_assoc. intros E. apply app_inv_head in E.
  by injection E.
Qed.

End more_equations.

(** X1.  Documents over different list objects are isolated: whatever is
    added to one, in any number of calls, the other shows the words it
    showed, and every object but the receiver's list is left as it was. *)
Theorem add_word_isolated (h : heap) (d d' : addr) (items items' ws : list string) :
  words_of d h = Ok items h →
  words_of d' h = Ok items' h →
  Document.get_words d h ≠ Document.get_words d' h →
  ∃ h', add_each d ws h = Ok tt h' ∧
        words_of d h' = Ok (items ++ ws) h' ∧
        words_of d' h' = Ok items' h' ∧
        ∀ a, Document.get_words d h ≠ Ok a h → h' !! a = h !! a.
Proof.
  intros Hw Hw' Hne.
  apply words_of_inv in Hw as (_ & l & Hd & Hl).
  apply words_of_inv in Hw' as (_ & l' & Hd' & Hl').
  rewrite (get_words_Ok _ _ _ Hd), (get_words_Ok _ _ _ Hd') in Hne.
  assert (l ≠ l') as Hll by (intros ->; done).
  exists (<[l := PyList (items ++ ws)]> h).
  split; [by apply add_each_Ok|]. split; [|split].
  - apply (words_of_Ok _ _ l); [by eapply append_keeps_doc|apply lookup_insert_eq].
  - apply (words_of_Ok _ _ l'); [by eapply append_keeps_doc|].
    by rewrite lookup_insert_ne.
  - intros a Ha. rewrite (get_words_Ok _ _ _ Hd) in Ha.
    rewrite lookup_insert_ne; [done|]. by intros ->.
Qed.

Lemma add_word_isolated_witness :
  ∃ h', add_each 2%positive ["x"; "y"]
          {[ 1%positive := PyList ["a"]; 2%positive := PyDocument (Some 1%positive);
             3%positive := PyList ["b"]; 4%positive := PyDocument (Some 3%positive) ]}
        = Ok tt h' ∧
        words_of 2%positive h' = Ok (["a"] ++ ["x"; "y"]) h' ∧
        words_of 4%positive h' = Ok ["b"] h' ∧
        ∀ a, Document.get_words 2%positive
               {[ 1%positive := PyList ["a"]; 2%positive := PyDocument (Some 1%positive);
                  3%positive := PyList ["b"]; 4%positive := PyDocument (Some 3%positive) ]}
             ≠ Ok a
               {[ 1%positive := PyList ["a"]; 2%positive := PyDocument (Some 1%positive);
                  3%positive := PyList ["b"]; 4%positive := PyDocument (Some 3%positive) ]} →
             h' !! a
             = ({[ 1%positive := PyList ["a"]; 2%positive := PyDocument (Some 1%positive);
                   3%positive := PyList ["b"]; 4%positive := PyDocument (Some 3%positive) ]}
                 : heap) !! a.
Proof.
  apply (add_word_isolated
    {[ 1%positive := PyList ["a"]; 2%positive := PyDocument (Some 1%positive);
       3%positive := PyList ["b"]; 4%positive := PyDocument (Some 3%positive) ]}
    2%positive 4%positive ["a"] ["b"] ["x"; "y"]).
  - vm_compute. reflexivity.
  - vm_compute. reflexivity.
  - vm_compute. discriminate.
Defined.

(** X2.  Two [add_word] calls on two documents can be swapped without
    changing the outcome exactly when the documents hold different list
    objects or the two words are the same: over one shared list the order of
    the calls is the order of the words. *)
Theorem add_word_commutes_iff (h : heap) (d1 d2 : addr) (items1 items2 : list string)
    (a b : string) :
  words_of d1 h = Ok items1 h →
  words_of d2 h = Ok items2 h →
  (Document.add_word d1 a;; Document.add_word d2 b) h
  = (Document.add_word d2 b;; Document.add_word d1 a) h
  ↔ Document.get_words d1 h ≠ Document.get_words d2 h ∨ a = b.
Proof.
  intros Hw1 Hw2.
  apply words_of_inv in Hw1 as (_ & l1 & Hd1 & Hl1).
  apply words_of_inv in Hw2 as (_ & l2 & Hd2 & Hl2).
  rewrite (get_words_Ok _ _ _ Hd1), (get_words_Ok _ _ _ Hd2).
  rewrite (bind_Ok _ _ _ _ _ (add_word_Ok _ _ _ _ a Hd1 Hl1)).
  rewrite (bind_Ok _ _ _ _ _ (add_word_Ok _ _ _ _ b Hd2 Hl2)).
  pose proof (append_keeps_doc h l1 items1 (items1 ++ [a]) d2 _ Hl1 Hd2) as Hd2'.
  pose proof (append_keeps_doc h l2 items2 (items2 ++ [b]) d1 _ Hl2 Hd1) as Hd1'.
  destruct (decide (l1 = l2)) as [<-|Hne].
  - assert (items2 = items1) as -> by congruence.
    rewrite (add_word_Ok _ _ _ _ b Hd2' (lookup_insert_eq _ _ _)).
    rewrite (add_word_Ok _ _ _ _ a Hd1' (lookup_insert_eq _ _ _)).
    rewrite !insert_insert_eq. split.
    + intros [= E]. right. apply (snoc_swap_inv items1).
      apply (f_equal (λ m : heap, m !! l1)) in E.
      rewrite !lookup_insert_eq in E. congruence.
    + intros [Hc| ->]; [done|done].
  - assert (Hl2' : <[l1 := PyList (items1 ++ [a])]> h !! l2 = Some (PyList items2))
      by by rewrite lookup_insert_ne.
    assert (Hl1' : <[l2 := PyList (items2 ++ [b])]> h !! l1 = Some (PyList items1))
      by by rewrite lookup_insert_ne.
    rewrite (add_word_Ok _ _ _ _ b Hd2' Hl2'), (add_word_Ok _ _ _ _ a Hd1' Hl1').
    split.
    + intros _. left. congruence.
    + intros _. by rewrite insert_insert_ne.
Qed.

Lemma add_word_commutes_iff_witness :
  (Document.add_word 2%positive "x";; Document.add_word 3%positive "y")
    {[ 1%positive := PyList ["a"]; 2%positive := PyDocument (Some 1%positive);
       3%positive := PyDocument (Some 1%positive) ]}
  = (Document.add_word 3%positive "y";; Document.add_word 2%positive "x")
    {[ 1%positive := PyList ["a"]; 2%positive := PyDocument (Some 1%positive);
       3%positive := PyDocument (Some 1%positive) ]}
  ↔ Document.get_words 2%positive
      {[ 1%positive := PyList ["a"]; 2%positive := PyDocument (Some 1%positive);
         3%positive := PyDocument (Some 1%positive) ]}
    ≠ Document.get_words 3%positive
      {[ 1%positive := PyList ["a"]; 2%positive := PyDocument (Some 1%positive);
         3%positive := PyDocument (Some 1%positive) ]}
    ∨ "x" = "y".
Proof.
  apply (add_word_commutes_iff
    {[ 1%positive := PyList ["a"]; 2%positive := PyDocument (Some 1%positive);
       3%positive := PyDocument (Some 1%positive) ]}
    2%positive 3%positive ["a"] ["a"] "x" "y"); vm_compute; reflexivity.
Defined.

(** X3.  The constructor keeps the caller's list and [get_words] hands it
    out: a word the caller appends to the list it built the document from,
    or to the list [get_words] returned, shows in the document. *)
Theorem lists_stay_live (h : heap) (l : addr) (items : list string) (x : string) :
  list_items l h = Ok items h →
  (∃ h', (d ← Document.new l; list_append l x;; words_of d) h
         = Ok (items ++ [x]) h') ∧
  (∃ h', (d ← Document.new l; r ← Document.get_words d;
          list_append r x;; words_of d) h
         = Ok (items ++ [x]) h').
Proof.
  intros Hl. apply list_items_inv in Hl as [Hl _].
  set (d := fresh (dom h)). set (h1 := <[d := PyDocument (Some l)]> h).
  assert (Hd1 : h1 !! d = Some (PyDocument (Some l))) by apply lookup_insert_eq.
  assert (Hl1 : h1 !! l = Some (PyList items)) by by apply alloc_keeps.
  pose proof (add_word_shared h1 d d l items x Hd1 Hd1 Hl1) as Hshow.
  split; exists (<[l := PyList (items ++ [x])]> h1).
  - rewrite (bind_Ok _ _ _ _ _ (new_Ok h l)).
    by rewrite (bind_Ok _ _ _ _ _ (list_append_Ok _ _ _ x Hl1)).
  - rewrite (bind_Ok _ _ _ _ _ (new_Ok h l)).
    rewrite (bind_Ok _ _ _ _ _ (get_words_Ok _ _ _ Hd1)).
    by rewrite (bind_Ok _ _ _ _ _ (list_append_Ok _ _ _ x Hl1)).
Qed.

Lemma lists_stay_live_witness :
  ∃ h', (d ← Document.new 1%positive; list_append 1%positive "world";; words_of d)
          {[ 1%positive := PyList ["Hello"] ]}
        = Ok (["Hello"] ++ ["world"]) h'.
Proof.
  refine (proj1 (lists_stay_live {[ 1%positive := PyList ["Hello"] ]}
                   1%positive ["Hello"] "world" _)).
  vm_compute. reflexivity.
Defined.

(** X4.  The constructor does not look at its argument, so a wrong one is
    found out late: built from an instance instead of a list, the document
    is created and [get_words] returns that instance, and it is the first
    [add_word] that raises [AttributeError]. *)
Theorem wrong_argument_fails_late (h : heap) (x : addr) (w0 : option addr) (w : string) :
  h !! x = Some (PyDocument w0) →
  (∃ h', (d ← Document.new x; Document.get_words d) h = Ok x h') ∧
  (d ← Document.new x; Document.add_word d w) h = Raise AttributeError.
Proof.
  intros Hx.
  set (d := fresh (dom h)). set (h1 := <[d := PyDocument (Some x)]> h).
  assert (Hd1 : h1 !! d = Some (PyDocument (Some x))) by apply lookup_insert_eq.
  assert (Hx1 : h1 !! x = Some (PyDocument w0)) by by apply alloc_keeps.
  split.
  - exists h1. rewrite (bind_Ok _ _ _ _ _ (new_Ok h x)). by apply get_words_Ok.
  - rewrite (bind_Ok _ _ _ _ _ (new_Ok h x)). unfold Document.add_word.
    rewrite (bind_Ok _ _ _ _ _ (getattr_words_Ok _ _ _ Hd1)).
    by eapply list_append_not_list.
Qed.

Lemma wrong_argument_fails_late_witness :
  (d ← Document.new 2%positive; Document.add_word d "world")
    {[ 1%positive := PyList ["Hello"]; 2%positive := PyDocument (Some 1%positive) ]}
  = Raise AttributeError.
Proof.
  refine (proj2 (wrong_argument_fails_late
    {[ 1%positive := PyList ["Hello"]; 2%positive := PyDocument (Some 1%positive) ]}
    2%positive (Some 1%positive) "world" _)).
  vm_compute. reflexivity.
Defined.



Section module.
Implicit Types (h : heap).

(** An address that is new to a store is new to every part of it. *)
Lemma fresh_weaken h m : h ⊆ m → h !! fresh (dom m) = None.
Proof. intros Hsub. eapply lookup_weaken_None; [apply alloc_fresh|done]. Qed.

End module.

(** X6.  Whatever name the module runs under, its body returns normally and
    leaves every object that was there untouched; run as a script it adds
    exactly the three objects of [main], imported under any other name it
    adds none. *)
Theorem module_body_effect (name : string) (h : heap) :
  ∃ h', module_body name h = Ok tt h' ∧
        h ⊆ h' ∧
        size h' = (if String.eqb name "__main__" then size h + 3 else size h).
Proof.
  unfold module_body. destruct (String.eqb name "__main__").
  - destruct (main_Ok h) as [-> _].
    set (words := fresh (dom h)).
    set (h1 := <[words := PyList ["Hello"]]> h).
    set (d := fresh (dom h1)).
    set (h2 := <[d := PyDocument (Some words)]> h1).
    set (d2 := fresh (dom h2)).
    set (h3 := <[d2 := PyDocument (Some words)]> h2).
    assert (S1 : h ⊆ h1) by apply insert_subseteq, alloc_fresh.
    assert (S2 : h ⊆ h2) by (apply insert_subseteq_r; [by apply fresh_weaken|done]).
    assert (S3 : h ⊆ h3) by (apply insert_subseteq_r; [by apply fresh_weaken|done]).
    assert (Hw3 : h3 !! words = Some (PyList ["Hello"])).
    { do 2 apply alloc_keeps. apply lookup_insert_eq. }
    eexists. split; [done|]. split.
    + apply insert_subseteq_r; [apply alloc_fresh|done].
    + rewrite map_size_insert_Some by done.
      unfold h3, h2, h1.
      rewrite !map_size_insert_None by apply alloc_fresh. lia.
  - exists h. done.
Qed.

(** ** Stores only grow *)

Section growth.
Implicit Types (h : heap) (f : frame) (p : list stmt).

Lemma grows_refl h : grows h h.
Proof.
  intros a [items|w] Ha; [|done]. exists []. by rewrite app_nil_r.
Qed.

Lemma grows_trans h1 h2 h3 : grows h1 h2 → grows h2 h3 → grows h1 h3.
Proof.
  intros G12 G23 a [items|w] Ha.
  - destruct (G12 a _ Ha) as [m1 H2]. destruct (G23 a _ H2) as [m2 H3].
    exists (m1 ++ m2). by rewrite app_assoc.
  - apply (G23 a (PyDocument w)), (G12 a (PyDocument w)), Ha.
Qed.

Lemma grows_alloc h o : grows h (<[fresh (dom h) := o]> h).
Proof.
  intros a [items|w] Ha.
  - exists []. rewrite app_nil_r. by apply alloc_keeps.
  - by apply alloc_keeps.
Qed.

Lemma grows_append h l items w :
  h !! l = Some (PyList items) → grows h (<[l := PyList (items ++ [w])]> h).
Proof.
  intros Hl a [items'|w'] Ha.
  - destruct (decide (a = l)) as [->|Hne].
    + exists [w]. rewrite lookup_insert_eq. congruence.
    + exists []. by rewrite app_nil_r, lookup_insert_ne.
  - by eapply append_keeps_doc.
Qed.

Lemma var_inv (vs : list addr) i a h h' :
  var vs i h = Ok a h' → vs !! i = Some a ∧ h' = h.
Proof.
  unfold var. destruct (vs !! i); [|done].
  unfold mret, M_ret. by intros [= -> ->].
Qed.

Lemma add_word_inv h d w u h' :
  Document.add_word d w h = Ok u h' →
  ∃ l items, h !! d = Some (PyDocument (Some l)) ∧ h !! l = Some (PyList items) ∧
             h' = <[l := PyList (items ++ [w])]> h.
Proof.
  intros E. apply bind_inv_Ok in E as (l & h1 & E1 & E2).
  apply getattr_words_inv in E1 as [Hd ->].
  unfold list_append, mbind, M_bind, load in E2.
  destruct (h !! l) as [[items|w0]|] eqn:Hl; [|done..].
  exists l, items. unfold store in E2. by injection E2 as _ <-.
Qed.

(** One statement leaves a grown store and keeps the variables bound. *)
Lemma exec_grows s f h f' h' :
  exec s f h = Ok f' h' →
  grows h h' ∧
  (∀ x l, lists f !! x = Some l → lists f' !! x = Some l) ∧
  (∀ i d, docs f !! i = Some d → docs f' !! i = Some d).
Proof.
  destruct s as [items|x|i|i w]; simpl; intros E.
  - apply bind_inv_Ok in E as (l & h1 & E1 & E2).
    unfold list_new, alloc in E1. injection E1 as <- <-.
    unfold mret, M_ret in E2. injection E2 as <- <-.
    split; [apply grows_alloc|]. split; [|done].
    intros y l Hy. by apply lookup_app_l_Some.
  - apply bind_inv_Ok in E as (l & h1 & E1 & E2).
    apply var_inv in E1 as [Hx ->].
    rewrite (bind_Ok _ _ _ _ _ (new_Ok h l)) in E2.
    unfold mret, M_ret in E2. injection E2 as <- <-.
    split; [apply grows_alloc|]. split; [done|].
    intros j d Hj. by apply lookup_app_l_Some.
  - apply bind_inv_Ok in E as (d & h1 & E1 & E2).
    apply var_inv in E1 as [Hi ->].
    apply bind_inv_Ok in E2 as (l & h1 & E1 & E2).
    apply getattr_words_inv in E1 as [Hd ->].
    unfold mret, M_ret in E2. injection E2 as <- <-.
    split; [apply grows_refl|]. split; [|done].
    intros y l' Hy. by apply lookup_app_l_Some.
  - apply bind_inv_Ok in E as (d & h1 & E1 & E2).
    apply var_inv in E1 as [Hi ->].
    apply bind_inv_Ok in E2 as (u & h1 & E1 & E2).
    apply add_word_inv in E1 as (l & items & Hd & Hl & ->).
    unfold mret, M_ret in E2. injection E2 as <- <-.
    split; [by apply grows_append|]. done.
Qed.

Lemma run_grows p f h f' h' :
  run p f h = Ok f' h' →
  grows h h' ∧
  (∀ x l, lists f !! x = Some l → lists f' !! x = Some l) ∧
  (∀ i d, docs f !! i = Some d → docs f' !! i = Some d).
Proof.
  revert f h. induction p as [|s p IH]; intros f h; simpl.
  - unfold mret, M_ret. intros [= -> ->]. split; [apply grows_refl|done].
  - intros E. apply bind_inv_Ok in E as (f1 & h1 & E1 & E2).
    destruct (exec_grows _ _ _ _ _ E1) as (G1 & L1 & D1).
    destruct (IH _ _ E2) as (G2 & L2 & D2).
    split; [by eapply grows_trans|]. split; eauto.
Qed.

(** A typed frame has a ledger: the words its documents show. *)
Lemma docs_typed_agrees h f :
  docs_typed h f →
  agrees h f ((λ d, from_option (items_at h) [] (attr h d)) <$> docs f).
Proof.
  intros Ht. split; [by rewrite length_fmap|].
  intros i d Hi. destruct (Ht i d Hi) as [ws Hw].
  exists ws. split; [|done].
  apply words_of_inv in Hw as (_ & l & Hd & Hl).
  rewrite list_lookup_fmap, Hi. simpl.
  unfold attr. rewrite Hd. simpl. unfold items_at. by rewrite Hl.
Qed.

Lemma grows_words_of h h' d ws :
  grows h h' → words_of d h = Ok ws h →
  ∃ more, words_of d h' = Ok (ws ++ more) h'.
Proof.
  intros G Hw. apply words_of_inv in Hw as (_ & l & Hd & Hl).
  destruct (G l _ Hl) as [more Hl']. exists more.
  apply (words_of_Ok _ _ l); [|done]. apply (G d _ Hd).
Qed.

End growth.



(** ** Aliasing is decided by the client's text *)

Section aliasing.
Implicit Types (h : heap) (f : frame) (p : list stmt) (o : origins) (tbl : list addr).

Lemma tracks_start h : tracks h frame0 origins0 [].
Proof.
  split; [constructor|]. do 3 (split; [done|]).
  split; [|split]; intros i x Hi; by destruct i.
Qed.

(** One statement: the state it leaves is described by the origins after
    that statement. *)
Lemma exec_tracks s p f o tbl h :
  scoped (length (lists f)) (length (docs f)) (s :: p) = true →
  tracks h f o tbl →
  ∃ f' h' tbl', exec s f h = Ok f' h' ∧
                scoped (length (lists f')) (length (docs f')) p = true ∧
                tracks h' f' (origin_step s o) tbl'.
Proof.
  intros Hs (Hnd & Hlen & Hll & Hld & Ht & Hl & Hd).
  destruct s as [items|x|i|i w]; simpl in Hs.
  - (* x_k = [items] *)
    set (a := fresh (dom h)). set (h1 := <[a := PyList items]> h).
    exists (bind_list f a), h1, (tbl ++ [a]). split; [done|]. split.
    { simpl. rewrite length_app. simpl. by rewrite Nat.add_1_r. }
    split.
    { apply NoDup_app. split; [done|]. split; [|apply NoDup_singleton].
      intros l Hin Ha. apply list_elem_of_singleton in Ha as ->.
      apply list_elem_of_lookup in Hin as [k Hk].
      destruct (Ht k _ Hk) as [its Hits].
      unfold a in Hits. by rewrite alloc_fresh in Hits. }
    simpl. rewrite !length_app. simpl.
    split; [by rewrite Hlen, Nat.add_1_r|]. split; [by rewrite Hll|].
    split; [done|]. split; [|split].
    + intros k l Hk. apply lookup_snoc_Some in Hk as [[_ Hk]|[_ <-]].
      * destruct (Ht k l Hk) as [its Hits]. exists its. by apply alloc_keeps.
      * exists items. apply lookup_insert_eq.
    + intros x l Hx. apply lookup_snoc_Some in Hx as [[_ Hx]|[Hx <-]].
      * destruct (Hl x l Hx) as (k & Hk1 & Hk2). exists k.
        split; by apply lookup_app_l_Some.
      * exists (displays o). split.
        -- rewrite Hx, <- Hll. by apply list_lookup_middle.
        -- rewrite <- Hlen. by apply list_lookup_middle.
    + intros i d Hi. destruct (Hd i d Hi) as (k & l & Hk & Hkl & Hdl).
      exists k, l. split; [done|]. split; [by apply lookup_app_l_Some|].
      by apply alloc_keeps.
  - (* d_k = Document(x_x) *)
    apply andb_prop in Hs as [Hx Hs]. apply bool_decide_eq_true_1 in Hx.
    apply lookup_lt_is_Some_2 in Hx as [l Hx].
    destruct (Hl x l Hx) as (k & Hk & Hkl).
    set (d := fresh (dom h)). set (h1 := <[d := PyDocument (Some l)]> h).
    exists (bind_doc f d), h1, tbl. split.
    { simpl. rewrite (bind_Ok _ _ _ _ _ (var_Ok _ _ _ h Hx)).
      by rewrite (bind_Ok _ _ _ _ _ (new_Ok h l)). }
    split.
    { simpl. rewrite length_app. simpl. by rewrite Nat.add_1_r. }
    split; [done|]. simpl. rewrite !length_app. simpl.
    split; [done|]. split; [done|]. split; [by rewrite Hld|].
    split; [|split].
    + intros k' l' Hk'. destruct (Ht k' l' Hk') as [its Hits].
      exists its. by apply alloc_keeps.
    + done.
    + intros i d' Hi. apply lookup_snoc_Some in Hi as [[_ Hi]|[Hi <-]].
      * destruct (Hd i d' Hi) as (k' & l' & Hk' & Hkl' & Hdl).
        exists k', l'. split; [by apply lookup_app_l_Some|].
        split; [done|]. by apply alloc_keeps.
      * exists k, l. rewrite Hk. simpl. split.
        -- rewrite Hi, <- Hld. by apply list_lookup_middle.
        -- split; [done|]. apply lookup_insert_eq.
  - (* x_k = d_i.get_words() *)
    apply andb_prop in Hs as [Hi Hs]. apply bool_decide_eq_true_1 in Hi.
    apply lookup_lt_is_Some_2 in Hi as [d Hi].
    destruct (Hd i d Hi) as (k & l & Hk & Hkl & Hdl).
    exists (bind_list f l), h, tbl. split.
    { simpl. rewrite (bind_Ok _ _ _ _ _ (var_Ok _ _ _ h Hi)).
      by rewrite (bind_Ok _ _ _ _ _ (get_words_Ok _ _ _ Hdl)). }
    split.
    { simpl. rewrite length_app. simpl. by rewrite Nat.add_1_r. }
    split; [done|]. simpl. rewrite !length_app. simpl.
    split; [done|]. split; [by rewrite Hll|]. split; [done|].
    split; [done|]. split; [|done].
    intros x l' Hx. apply lookup_snoc_Some in Hx as [[_ Hx]|[Hx <-]].
    + destruct (Hl x l' Hx) as (k' & Hk1 & Hk2). exists k'.
      split; [by apply lookup_app_l_Some|done].
    + exists k. rewrite Hk. simpl. split; [|done].
      rewrite Hx, <- Hll. by apply list_lookup_middle.
  - (* d_i.add_word(w) *)
    apply andb_prop in Hs as [Hi Hs]. apply bool_decide_eq_true_1 in Hi.
    apply lookup_lt_is_Some_2 in Hi as [d Hi].
    destruct (Hd i d Hi) as (k & l & Hk & Hkl & Hdl).
    destruct (Ht k l Hkl) as [its Hits].
    exists f, (<[l := PyList (its ++ [w])]> h), tbl. split.
    { simpl. rewrite (bind_Ok _ _ _ _ _ (var_Ok _ _ _ h Hi)).
      by rewrite (bind_Ok _ _ _ _ _ (add_word_Ok _ _ _ _ w Hdl Hits)). }
    split; [done|]. split; [done|]. do 3 (split; [done|]).
    split; [|split; [done|]].
    + intros k' l' Hk'. destruct (decide (l = l')) as [<-|Hne].
      * exists (its ++ [w]). apply lookup_insert_eq.
      * destruct (Ht k' l' Hk') as [its' Hits']. exists its'.
        by rewrite lookup_insert_ne.
    + intros j d' Hj. destruct (Hd j d' Hj) as (k' & l' & Hk' & Hkl' & Hdl').
      exists k', l'. split; [done|]. split; [done|].
      by eapply append_keeps_doc.
Qed.

Lemma run_tracks p f o tbl h :
  scoped (length (lists f)) (length (docs f)) p = true →
  tracks h f o tbl →
  ∃ f' h' tbl', run p f h = Ok f' h' ∧ tracks h' f' (origins_from p o) tbl'.
Proof.
  revert f o tbl h. induction p as [|s p IH]; intros f o tbl h Hs Ht.
  - by exists f, h, tbl.
  - destruct (exec_tracks s p f o tbl h Hs Ht) as (f1 & h1 & tbl1 & He & Hs1 & Ht1).
    destruct (IH f1 _ tbl1 h1 Hs1 Ht1) as (f' & h' & tbl' & Hr & Ht').
    exists f', h', tbl'. split; [|done].
    simpl. by rewrite (bind_Ok _ _ _ _ _ He).
Qed.

End aliasing.

(** X8.  Which documents share a list can be read off the client's text:
    after any well-scoped client, from any store, two of its documents
    return the same list object from [get_words] exactly when they stem,
    through constructions and [get_words] calls, from the same list
    display. *)
Theorem alias_iff_same_origin (p : list stmt) (h : heap) :
  scoped 0 0 p = true →
  ∃ f h', run p frame0 h = Ok f h' ∧
          ∀ i j di dj, docs f !! i = Some di → docs f !! j = Some dj →
            (Document.get_words di h' = Document.get_words dj h'
             ↔ dorig (origins_of p) !! i = dorig (origins_of p) !! j).
Proof.
  intros Hs.
  destruct (run_tracks p frame0 origins0 [] h Hs (tracks_start h))
    as (f & h' & tbl & Hrun & Hnd & _ & _ & _ & _ & _ & Hd).
  exists f, h'. split; [done|].
  intros i j di dj Hi Hj.
  destruct (Hd i di Hi) as (ki & li & Hki & Hli & Hdi).
  destruct (Hd j dj Hj) as (kj & lj & Hkj & Hlj & Hdj).
  rewrite (get_words_Ok _ _ _ Hdi), (get_words_Ok _ _ _ Hdj).
  unfold origins_of. rewrite Hki, Hkj. split.
  - intros [= ->]. f_equal. by eapply NoDup_lookup.
  - intros [= ->]. congruence.
Qed.

Lemma alias_iff_same_origin_witness :
  ∃ f h', run [SList ["a"]; SNew 0; SGetWords 0; SNew 1; SList ["a"]; SNew 2] frame0 ∅
          = Ok f h' ∧
          ∀ i j di dj, docs f !! i = Some di → docs f !! j = Some dj →
            (Document.get_words di h' = Document.get_words dj h'
             ↔ dorig (origins_of [SList ["a"]; SNew 0; SGetWords 0; SNew 1;
                                  SList ["a"]; SNew 2]) !! i
               = dorig (origins_of [SList ["a"]; SNew 0; SGetWords 0; SNew 1;
                                    SList ["a"]; SNew 2]) !! j).
Proof.
  apply (alias_iff_same_origin
           [SList ["a"]; SNew 0; SGetWords 0; SNew 1; SList ["a"]; SNew 2] ∅).
  reflexivity.
Defined.

Example origins_demo :
  dorig (origins_of [SList ["a"]; SNew 0; SGetWords 0; SNew 1; SList ["a"]; SNew 2])
  = [0; 0; 1].
Proof. reflexivity. Qed.
